(** * ConvergedRAG web front end: menu selection and the user-setting hooks

  A shallow embedding of

  - [web/src/layouts/next.tsx] and the layout variants kept next to
    [web/src/layouts/components/header/index.tsx]: the menu trees and
    the [selectedKey] computed from the current path;
  - the [Sidebar] component kept next to
    [web/src/pages/user-setting/index.tsx]: its menu tree, its click
    handler and [getSelectedKeys];
  - the hooks of the user-setting team page ([useAddUser],
    [useHandleDeleteUser], [useHandleAgreeTenant], [useHandleQuitUser],
    [useUpdateUserStatus], [useEditUser]) and the [EditUserModal] form.

  JavaScript strings are modelled by [string]; [startsWith] compares
  code units from the left, which on [string] is [String.prefix].
  Event handlers run to completion in a state monad over a [World]
  holding what the hooks can observe or change: the remote calls issued,
  the dialogs on screen, the query-cache invalidations, the console and
  the router.  What the remote side answers is a parameter. *)

From Stdlib Require Import String List ZArith Bool Lia.
Import ListNotations.
Local Open Scope string_scope.
Local Open Scope list_scope.
Set Warnings "-register-all".

(** ** JavaScript string and array primitives *)

(** [s.startsWith(searchString)] *)
Definition startsWith (s searchString : string) : bool :=
  String.prefix searchString s.

(** [a || b] on strings: the empty string is falsy, [undefined] is [None]. *)
Definition js_or (a : option string) (b : string) : string :=
  match a with
  | Some s => if String.eqb s "" then b else s
  | None => b
  end.

(** ** Menu items (antd [ItemType]) *)

Module Menu.

(** The icon components the layouts mount; they are opaque to the logic. *)
Inductive Icon : Set :=
| KnowledgeBaseIcon | MessageOutlined | SearchOutlined | GraphIcon
| FileIcon | Library | MessageSquareText | Search | Cpu | File
| ChatIcon | SearchIcon | CpuIcon | SystemIcon | UserIcon | SysIcon.

Inductive ItemKind : Set := group.

(** [{ key, label, icon, children, type }]; a property that is left out
    is [None]. *)
Inductive MenuItem : Type :=
| Item (key : string) (label : string) (icon : option Icon)
       (children : option (list MenuItem)) (type : option ItemKind).

Definition key (n : MenuItem) : string :=
  match n with Item k _ _ _ _ => k end.

Definition label (n : MenuItem) : string :=
  match n with Item _ l _ _ _ => l end.

Definition children (n : MenuItem) : option (list MenuItem) :=
  match n with Item _ _ _ c _ => c end.

(** Every key of a node and of its descendants, in document order. *)
Fixpoint node_keys (n : MenuItem) : list string :=
  match n with
  | Item k _ _ c _ =>
      k :: match c with
           | Some l => flat_map node_keys l
           | None => []
           end
  end.

(** Every key of a menu tree. *)
Definition tree_keys (items : list MenuItem) : list string :=
  flat_map node_keys items.

(** The props the layouts hand to antd's [<Menu>]; a prop that is not
    passed is [None]. *)
Record MenuProps : Type := {
  selectedKeys : list string;
  openKeys : option (list string);
  defaultOpenKeys : option (list string);
  items : list MenuItem
}.

(** [menuItems.find((item) => pathname.startsWith(item.key))?.key || dflt],
    the expression every layout variant uses. *)
Definition find_key_or (dflt : string) (menuItems : list MenuItem)
    (pathname : string) : string :=
  js_or
    (option_map key
       (find (fun item => startsWith pathname (key item)) menuItems))
    dflt.

End Menu.
Import Menu.

(** What the evaluation of a JavaScript expression can end in instead of
    a value: reading a name that no binding is in scope for throws. *)
Inductive Thrown : Set := ReferenceError (name : string).

(** ** [web/src/layouts/next.tsx] *)

Module NextLayout.
Section WithTranslate.

(** [useTranslate('header').t] *)
Variable t : string -> string.

Definition menuItems : list MenuItem :=
  [ Item "/knowledge" (t "knowledgeBase") (Some KnowledgeBaseIcon) None None;
    Item "/chat" (t "chat") (Some MessageOutlined) None None;
    Item "/search" (t "search") (Some SearchOutlined) None None;
    Item "/flow" (t "flow") (Some GraphIcon) None None;
    Item "/file" (t "fileManager") (Some FileIcon) None None;
    Item "/user" (t "userManager") (Some FileIcon)
      (Some
         [ Item "/user/profile" (t "profile") None None None;
           Item "/user/password" (t "password") None None None;
           Item "/user/team" (t "team") None None None;
           Item "/user/locale" (t "setting") None None None;
           Item "/user/logout" (t "logout") None None None ])
      None;
    Item "/system" (t "systemManager") (Some FileIcon)
      (Some
         [ Item "/system/settingmodel" (t "modelProvider") None None None;
           Item "/system/sysinfo" (t "systeminfo") None None None;
           Item "/system/api" (t "api") None None None ])
      None ].

(** The names bound at the top level of [next.tsx]: its imports, the
    two components it takes out of [Layout], and the component itself.
    [useLogout] is not among them. *)
Definition module_scope : list string :=
  [ "FileIcon"; "GraphIcon"; "KnowledgeBaseIcon"; "useTranslate";
    "useNavigateWithFromState"; "Routes"; "MessageOutlined";
    "SearchOutlined"; "Divider"; "Layout"; "Menu"; "useMemo"; "Outlet";
    "useLocation"; "styles"; "Header"; "Sider"; "Content"; "NextLayout" ].

(** Reading a name inside the component: [useLogout] is neither a
    local of [NextLayout] nor a global of the browser, so it is looked
    up in the module scope. *)
Definition read (name : string) : Thrown + unit :=
  if existsb (String.eqb name) module_scope then inr tt
  else inl (ReferenceError name).

(** The [useMemo] callback, statement by statement: [basePath] is
    computed from the path and never read; [useLogout()] reads a name;
    only then comes the [return] with the expression the other layout
    variants have. *)
Definition selectedKey (pathname : string) : Thrown + string :=
  match read "useLogout" with
  | inl thrown => inl thrown
  | inr _ => inr (find_key_or "/knowledge" menuItems pathname)
  end.

(** Rendering the layout evaluates [selectedKey] before it reaches the
    [<Menu mode="inline" selectedKeys={[selectedKey]} items={menuItems}
    .../>], to which neither [openKeys] nor [defaultOpenKeys] is
    passed. *)
Definition menu (pathname : string) : Thrown + MenuProps :=
  match selectedKey pathname with
  | inl thrown => inl thrown
  | inr selected =>
      inr {| selectedKeys := [selected];
             openKeys := None;
             defaultOpenKeys := None;
             items := menuItems |}
  end.

End WithTranslate.
End NextLayout.

(** ** The [App] layout with the user and system groups, kept with
    [header/index.tsx] *)

Module AppLayout.
Section WithTranslate.

Variable t : string -> string.

Definition menuItems : list MenuItem :=
  [ Item "/knowledge" (t "knowledgeBase") (Some KnowledgeBaseIcon) None None;
    Item "/chat" (t "chat") (Some MessageOutlined) None None;
    Item "/search" (t "search") (Some SearchOutlined) None None;
    Item "/flow" (t "flow") (Some GraphIcon) None None;
    Item "/file" (t "fileManager") (Some FileIcon) None None;
    Item "/user" (t "userManager") (Some UserIcon)
      (Some
         [ Item "/user/profile" (t "profile") None None None;
           Item "/user/password" (t "password") None None None;
           Item "/user/team" (t "team") None None None;
           Item "/user/logout" (t "logout") None None None ])
      None;
    Item "/system" (t "systemManager") (Some SysIcon)
      (Some
         [ Item "/system/settingmodel" (t "modelProvider") None None None;
           Item "/system/sysinfo" (t "systeminfo") None None None;
           Item "/system/api" (t "api") None None None ])
      None ].

Definition selectedKey (pathname : string) : string :=
  find_key_or "/knowledge" menuItems pathname.

Definition menu (pathname : string) : MenuProps :=
  {| selectedKeys := [selectedKey pathname];
     openKeys := None;
     defaultOpenKeys := None;
     items := menuItems |}.

End WithTranslate.
End AppLayout.

(** ** The [Routes]-keyed [NextLayout] kept with [header/index.tsx] *)

Module RoutesLayout.
Section WithRoutes.

Variable t : string -> string.

(** The members of the enum [Routes] of [@/routes] that the layout
    names.  The enum is not among the sources, so their paths are
    parameters. *)
Variables Home Datasets Chats Searches Agents Files : string.

Definition menuItems : list MenuItem :=
  [ Item Datasets (t "knowledgeBase") (Some Library) None None;
    Item Chats (t "chat") (Some MessageSquareText) None None;
    Item Searches (t "search") (Some Search) None None;
    Item Agents (t "flow") (Some Cpu) None None;
    Item Files (t "fileManager") (Some File) None None ].

Definition selectedKey (pathname : string) : string :=
  find_key_or Home menuItems pathname.

Definition menu (pathname : string) : MenuProps :=
  {| selectedKeys := [selectedKey pathname];
     openKeys := None;
     defaultOpenKeys := None;
     items := menuItems |}.

End WithRoutes.
End RoutesLayout.

(** ** The world the event handlers act on *)

(** [TenantRole] of [../constants], as far as [EditUserModal] offers it. *)
Inductive TenantRole : Set := Owner | Normal.

(** The second argument of [updateUserStatus]: ['on'] or ['off']. *)
Inductive ActivateStatus : Set := on | off.

(** The object handed to [deleteTenantUser]; a property that is left out
    is [None]. *)
Record DeleteTenantUserArgs : Set := mkDeleteArgs {
  userId : option string;
  tenantId : option string
}.

(** A call that leaves the browser for the user/tenant API. *)
Inductive RemoteCall : Set :=
| AddTenantUser (email : string)
| DeleteTenantUser (args : DeleteTenantUserArgs)
| AgreeTenant (tenant : string)
| UpdateUserStatus (email : string) (state : ActivateStatus).

(** How a promise settles. *)
Inductive Settled (D : Type) : Type :=
| Fulfilled (data : D)
| Rejected (error : string).
Arguments Fulfilled {D} data.
Arguments Rejected {D} error.

(** The state [useEditUser] keeps in [editingUser]. *)
Record EditingUser : Set := mkEditingUser {
  user_id : string;
  nickname : string;
  email : string;
  role : TenantRole
}.

(** The values of the [EditUserModal] form. *)
Record FormData : Set := mkFormData {
  form_nickname : string;
  form_role : TenantRole
}.

(** The [onOk] closures handed to [showDeleteConfirm], each with the
    variables it captures. *)
Inductive OnOk : Set :=
| DeleteTenantUserOnOk (userId : string)
| QuitTenantUserOnOk (userId tenantId : string).

Record ConfirmOptions : Set := mkConfirm {
  title : string;
  onOk : OnOk
}.

Inductive ConsoleLine : Set :=
| ConsoleLog (message : string) (user : option string) (data : FormData)
| ConsoleError (message : string) (error : string).

Definition QueryKey : Set := list string.

Record World : Set := mkWorld {
  (** remote calls issued so far, oldest first *)
  calls : list RemoteCall;
  (** [visible] of the two [useSetModalState] instances *)
  addingTenantModalVisible : bool;
  editingUserModalVisible : bool;
  (** the edit buffer of [useEditUser] *)
  editingUser : option EditingUser;
  (** the confirmation dialog on screen, if any *)
  confirm : option ConfirmOptions;
  (** the messages [FormMessage] shows under the fields of a form *)
  formErrors : list (string * string);
  (** the [invalidateQueries] requests made to the query client *)
  invalidated : list QueryKey;
  console : list ConsoleLine;
  (** the router: current path and the navigations issued, oldest first *)
  pathname : string;
  navigations : list string
}.

(** Something is put before the user: a message under a form field or a
    dialog asking for a decision. *)
Definition user_notice (w : World) : Prop :=
  formErrors w <> [] \/ confirm w <> None.

(** Handlers are state transformers on the world. *)
Definition M (A : Type) : Type := World -> A * World.

Definition ret {A : Type} (a : A) : M A := fun w => (a, w).

Definition bind {A B : Type} (m : M A) (k : A -> M B) : M B :=
  fun w => let (a, w') := m w in k a w'.

Definition exec {A : Type} (m : M A) (w : World) : World := snd (m w).

Declare Scope handler_scope.
Delimit Scope handler_scope with handler.
Notation "x <- m ;; k" := (bind m (fun x => k))
  (at level 61, m at next level, right associativity) : handler_scope.
Notation "m ;; k" := (bind m (fun _ => k))
  (at level 61, right associativity) : handler_scope.
Local Open Scope handler_scope.

Definition log_call (c : RemoteCall) : M unit :=
  fun w => (tt, mkWorld (calls w ++ [c]) (addingTenantModalVisible w)
                  (editingUserModalVisible w) (editingUser w) (confirm w)
                  (formErrors w) (invalidated w) (console w) (pathname w)
                  (navigations w)).

Definition set_addingTenantModalVisible (b : bool) : M unit :=
  fun w => (tt, mkWorld (calls w) b (editingUserModalVisible w)
                  (editingUser w) (confirm w) (formErrors w) (invalidated w)
                  (console w) (pathname w) (navigations w)).

Definition set_editingUserModalVisible (b : bool) : M unit :=
  fun w => (tt, mkWorld (calls w) (addingTenantModalVisible w) b
                  (editingUser w) (confirm w) (formErrors w) (invalidated w)
                  (console w) (pathname w) (navigations w)).

(** [setEditingUser] *)
Definition setEditingUser (u : option EditingUser) : M unit :=
  fun w => (tt, mkWorld (calls w) (addingTenantModalVisible w)
                  (editingUserModalVisible w) u (confirm w) (formErrors w)
                  (invalidated w) (console w) (pathname w) (navigations w)).

Definition set_confirm (c : option ConfirmOptions) : M unit :=
  fun w => (tt, mkWorld (calls w) (addingTenantModalVisible w)
                  (editingUserModalVisible w) (editingUser w) c
                  (formErrors w) (invalidated w) (console w) (pathname w)
                  (navigations w)).

Definition set_formErrors (e : list (string * string)) : M unit :=
  fun w => (tt, mkWorld (calls w) (addingTenantModalVisible w)
                  (editingUserModalVisible w) (editingUser w) (confirm w) e
                  (invalidated w) (console w) (pathname w) (navigations w)).

(** [queryClient.invalidateQueries({ queryKey })] *)
Definition invalidateQueries (queryKey : QueryKey) : M unit :=
  fun w => (tt, mkWorld (calls w) (addingTenantModalVisible w)
                  (editingUserModalVisible w) (editingUser w) (confirm w)
                  (formErrors w) (invalidated w ++ [queryKey]) (console w)
                  (pathname w) (navigations w)).

Definition console_write (l : ConsoleLine) : M unit :=
  fun w => (tt, mkWorld (calls w) (addingTenantModalVisible w)
                  (editingUserModalVisible w) (editingUser w) (confirm w)
                  (formErrors w) (invalidated w) (console w ++ [l])
                  (pathname w) (navigations w)).

(** Modelled from the spec: [useNavigateWithFromState] of
    [@/hooks/route-hook] is not among the sources.  The routing
    collaborator accepts a path string and performs client-side
    navigation: the path becomes the current one and the navigation is
    recorded. *)
Definition navigate (path : string) : M unit :=
  fun w => (tt, mkWorld (calls w) (addingTenantModalVisible w)
                  (editingUserModalVisible w) (editingUser w) (confirm w)
                  (formErrors w) (invalidated w) (console w) path
                  (navigations w ++ [path])).

(** A world in which nothing happened yet. *)
Definition initial (path : string) : World :=
  mkWorld [] false false None None [] [] [] path [].

(** ** The [Sidebar] component *)

Module Sidebar.
Section WithTranslate.

(** [useTranslate('header').t] *)
Variable t : string -> string.

Definition getItem (label : string) (key : string) (icon : option Icon)
    (children : option (list MenuItem)) (type : option ItemKind) : MenuItem :=
  Item key label icon children type.

Definition mainMenuItems : list MenuItem :=
  [ getItem (t "knowledgeBase") "/datasets" (Some KnowledgeBaseIcon) None None;
    getItem (t "chat") "/next-chats" (Some ChatIcon) None None;
    getItem (t "search") "/next-searches" (Some SearchIcon) None None;
    getItem (t "flow") "/agents" (Some CpuIcon) None None;
    getItem (t "fileManager") "/files" (Some FileIcon) None None ].

Definition systemManagementItems : list MenuItem :=
  [ getItem (t "sidebar.dataSource") "/user-setting/data-source" None None None;
    getItem (t "sidebar.modelProvider") "/user-setting/model" None None None;
    getItem (t "sidebar.mcp") "/user-setting/mcp" None None None;
    getItem (t "sidebar.api") "/user-setting/api" None None None;
    getItem (t "sidebar.sysinfo") "/user-setting/system" None None None ].

Definition userManagementItems : list MenuItem :=
  [ getItem (t "sidebar.profile") "/user-setting/profile" None None None;
    getItem (t "sidebar.teamManagement") "/user-setting/team" None None None ].

Definition items : list MenuItem :=
  mainMenuItems ++
  [ getItem (t "sidebar.systemManagement") "" (Some SystemIcon)
      (Some systemManagementItems) None;
    getItem (t "sidebar.userManagement") "" (Some UserIcon)
      (Some userManagementItems) None ].

(** [handleMenuClick], applied to the [key] of the click event. *)
Definition handleMenuClick (key : string) : M unit :=
  if startsWith key "/" then navigate key else ret tt.

(** [getSelectedKeys]: the three [forEach] loops and the home-page test,
    in the order in which they push. *)
Definition getSelectedKeys (pathname : string) : list string :=
  flat_map
    (fun item =>
       if startsWith pathname (key item) && negb (String.eqb (key item) "/")
       then [key item] else [])
    mainMenuItems
  ++ (if String.eqb pathname "/" || String.eqb pathname "/home"
      then ["/"] else [])
  ++ flat_map
       (fun item =>
          if startsWith pathname (key item) then ["system"; key item] else [])
       systemManagementItems
  ++ flat_map
       (fun item =>
          if startsWith pathname (key item) then ["user"; key item] else [])
       userManagementItems.

Definition menu (pathname : string) : MenuProps :=
  {| selectedKeys := getSelectedKeys pathname;
     openKeys := None;
     defaultOpenKeys := Some ["system"; "user"];
     Menu.items := items |}.

End WithTranslate.
End Sidebar.

(** ** The hooks of the user-setting team page *)

Module UserSetting.
Section WithCollaborators.

(** [useTranslation().t] *)
Variable t : string -> string.

(** The result code the user/tenant API answers a call with, given the
    calls it has already received; [0] denotes success. *)
Variable result_code : RemoteCall -> list RemoteCall -> Z.

(** How the promise of [updateUserStatus] settles. *)
Variable status_outcome :
  string -> ActivateStatus -> list RemoteCall -> Settled Z.

(** [user.id] of the [data] that [useFetchUserInfo] returns. *)
Variable user_id_of_session : string.

(** The mutation functions of [@/hooks/user-setting-hooks]: each issues
    its call and resolves to the result code. *)
Definition remote (c : RemoteCall) : M Z :=
  fun w => (result_code c (calls w), snd (log_call c w)).

Definition addTenantUser (email : string) : M Z :=
  remote (AddTenantUser email).

Definition deleteTenantUser (args : DeleteTenantUserArgs) : M Z :=
  remote (DeleteTenantUser args).

Definition agreeTenant (tenant : string) : M Z :=
  remote (AgreeTenant tenant).

(** [updateUserStatus] of [@/services/admin-service]. *)
Definition updateUserStatus (email : string) (state : ActivateStatus)
    : M (Settled Z) :=
  fun w => (status_outcome email state (calls w),
            snd (log_call (UpdateUserStatus email state) w)).

(** Modelled from the spec: [useSetModalState] of [@/hooks/common-hooks]
    is not among the sources.  A modal-backed action has the states
    Closed and Open: [showModal] opens the dialog and [hideModal] closes
    it. *)
Definition showAddingTenantModal : M unit := set_addingTenantModalVisible true.

(** Modelled from the spec: see [showAddingTenantModal]. *)
Definition hideAddingTenantModal : M unit := set_addingTenantModalVisible false.

(** Modelled from the spec: see [showAddingTenantModal]. *)
Definition showEditingUserModal : M unit := set_editingUserModalVisible true.

(** Modelled from the spec: see [showAddingTenantModal]. *)
Definition hideEditingUserModal : M unit := set_editingUserModalVisible false.

(** *** [useAddUser] *)

Definition handleAddUserOk (email : string) : M unit :=
  code <- addTenantUser email ;;
  if Z.eqb code 0 then hideAddingTenantModal else ret tt.

(** *** The confirmation dialog *)

(** Modelled from the spec: [useShowDeleteConfirm] of
    [@/hooks/common-hooks] is not among the sources.  A confirmation-gated
    action presents an explicit confirmation step before the remote effect
    is issued: [showDeleteConfirm] only puts the dialog on screen. *)
Definition showDeleteConfirm (options : ConfirmOptions) : M unit :=
  set_confirm (Some options).

(** The bodies of the [onOk] closures of [handleDeleteTenantUser] and of
    [handleQuitTenantUser]. *)
Definition run_onOk (f : OnOk) : M unit :=
  match f with
  | DeleteTenantUserOnOk userId =>
      code <- deleteTenantUser (mkDeleteArgs (Some userId) None) ;;
      (if Z.eqb code 0 then ret tt else ret tt) ;;
      ret tt
  | QuitTenantUserOnOk userId tenantId =>
      _ <- deleteTenantUser (mkDeleteArgs (Some userId) (Some tenantId)) ;;
      ret tt
  end.

(** Modelled from the spec: the user confirms the dialog on screen; the
    dialog goes away and its [onOk] runs. *)
Definition confirmOk : M unit :=
  fun w =>
    match confirm w with
    | Some options => (set_confirm None ;; run_onOk (onOk options)) w
    | None => (tt, w)
    end.

(** Modelled from the spec: the user cancels the dialog on screen;
    canceling is a no-op with no remote effect, the dialog goes away. *)
Definition confirmCancel : M unit := set_confirm None.

(** *** [useHandleDeleteUser] *)

Definition handleDeleteTenantUser (userId : string) : M unit :=
  showDeleteConfirm
    (mkConfirm (t "setting.sureDelete") (DeleteTenantUserOnOk userId)).

(** *** [useHandleAgreeTenant] *)

Definition handleAgree (tenantId : string) (isAgree : bool) : M unit :=
  if isAgree
  then _ <- agreeTenant tenantId ;; ret tt
  else _ <- deleteTenantUser
              (mkDeleteArgs (Some user_id_of_session) (Some tenantId)) ;;
       ret tt.

(** *** [useHandleQuitUser] *)

Definition handleQuitTenantUser (userId tenantId : string) : M unit :=
  showDeleteConfirm
    (mkConfirm (t "setting.sureQuit") (QuitTenantUserOnOk userId tenantId)).

(** *** [useUpdateUserStatus] *)

(** The contract of react-query's [useMutation]: [mutate] runs
    [mutationFn], then [onSuccess] if its promise is fulfilled and
    [onError] if it is rejected. *)
Definition useMutation {V D : Type} (mutationFn : V -> M (Settled D))
    (onSuccess : M unit) (onError : string -> M unit) (variables : V)
    : M unit :=
  settled <- mutationFn variables ;;
  match settled with
  | Fulfilled _ => onSuccess
  | Rejected error => onError error
  end.

(** [mutation.mutate({ email, isActive })] *)
Definition useUpdateUserStatus : string * bool -> M unit :=
  useMutation
    (fun variables : string * bool =>
       let (email, isActive) := variables in
       updateUserStatus email (if isActive then on else off))
    (invalidateQueries ["listTenantUser"])
    (fun error =>
       console_write (ConsoleError "Failed to update user status:" error)).

(** *** [useEditUser] *)

Definition handleEditUser (userData : EditingUser) : M unit :=
  setEditingUser (Some userData) ;;
  showEditingUserModal.

Definition handleEditUserOk (data : FormData) : M unit :=
  (fun w =>
     console_write
       (ConsoleLog "Would update user:"
          (option_map user_id (editingUser w)) data) w) ;;
  hideEditingUserModal ;;
  setEditingUser None.

(** *** [EditUserModal] *)

(** [formSchema]: [nickname] is a string of at least one character;
    [role] is a member of [TenantRole], which its type already says. *)
Definition formSchema (values : FormData) : list (string * string) :=
  if Nat.leb 1 (String.length (form_nickname values)) then []
  else [("nickname", t "common.required")].

(** [form.handleSubmit(handleOk)] with [handleOk = (data) => onOk?.(data)]:
    the resolver validates first; [handleOk] runs only on valid values,
    otherwise the field messages are shown. *)
Definition handleSubmit (onOk : option (FormData -> M unit))
    (values : FormData) : M unit :=
  match formSchema values with
  | [] =>
      set_formErrors [] ;;
      match onOk with
      | Some f => f values
      | None => ret tt
      end
  | errors => set_formErrors errors
  end.

End WithCollaborators.
End UserSetting.

(** ** What the layouts and the headers do on events *)

Module NextLayoutEvents.

(** [onSelect={({ key }) => navigate(key as Routes)}] of [next.tsx] and
    of the [Routes]-keyed layout. *)
Definition onSelect (key : string) : M unit := navigate key.

End NextLayoutEvents.

Module AppLayoutEvents.
Section WithLogout.

(** [useLogout().logout]; the hook is not among the sources, so what it
    does to the world is a parameter. *)
Variable logout : M unit.

(** [onSelect] of the [App] layout with the user and system groups. *)
Definition onSelect (key : string) : M unit :=
  if String.eqb key "/user/logout" then logout else navigate key.

End WithLogout.
End AppLayoutEvents.

Module RagHeader.

(** [handleLogoClick] of [header/index.tsx] *)
Definition handleLogoClick : M unit := navigate "/".

(** [handleChange(path)], applied to the click event: after
    [e.preventDefault()] it navigates. *)
Definition handleChange (path : string) : M unit := navigate path.

End RagHeader.

Module NextHeader.
Section WithThemeEnum.

(** [ThemeEnum.Dark] and [ThemeEnum.Light] of [@/constants/common]. *)
Variables Dark Light : string.

(** [onThemeClick]: the theme it hands to [setTheme], given the current
    one. *)
Definition onThemeClick (theme : string) : string :=
  if String.eqb theme Dark then Light else Dark.

End WithThemeEnum.

Definition handleChange (path : string) : M unit := navigate path.

(** [handleLogoClick]; [Root] is [Routes.Root] of [@/routes], an enum
    that is not among the sources. *)
Definition handleLogoClick (Root : string) : M unit := navigate Root.

Definition handleProfileClick : M unit := navigate "/user-setting/profile".

End NextHeader.

(** ** Collapsing the [Sidebar] *)

Module Collapse.

(** The two [useState] cells: [collapsed] of the [Sidebar] and
    [sidebarCollapsed] of the layout that mounts it. *)
Record State : Set := mkState {
  collapsed : bool;
  sidebarCollapsed : bool
}.

Definition initial : State := mkState false false.

(** [handleSidebarCollapse] of the layout. *)
Definition handleSidebarCollapse (c : bool) (s : State) : State :=
  mkState (collapsed s) c.

Definition sidebarWidth (s : State) : Z :=
  if sidebarCollapsed s then 80%Z else 240%Z.

Definition contentMarginLeft (s : State) : Z :=
  if sidebarCollapsed s then 80%Z else 240%Z.

(** [handleCollapse] of the [Sidebar]: [setCollapsed(value)], then
    [onCollapseChange?.(value)]. *)
Definition handleCollapse (onCollapseChange : option (bool -> State -> State))
    (value : bool) (s : State) : State :=
  let s' := mkState value (sidebarCollapsed s) in
  match onCollapseChange with
  | Some f => f value s'
  | None => s'
  end.

(** The collapse events of a session, oldest first, with the [Sidebar]
    mounted as [<Sidebar onCollapseChange={handleSidebarCollapse} />]. *)
Definition run (events : list bool) (s : State) : State :=
  fold_left
    (fun s value => handleCollapse (Some handleSidebarCollapse) value s)
    events s.

End Collapse.

(** ** More of [EditUserModal] *)

Module EditUserModal.

(** [defaultValues] of the form: [userData?.nickname || ''] and
    [userData?.role || TenantRole.Normal]; every member of [TenantRole]
    is a non-empty string. *)
Definition defaultValues (userData : option EditingUser) : FormData :=
  mkFormData (js_or (option_map nickname userData) "")
    (match userData with
     | Some u => role u
     | None => Normal
     end).

(** [onOpenChange={(open) => !open && hideModal?.()}] *)
Definition onOpenChange (hideModal : option (M unit)) (open : bool) : M unit :=
  if negb open
  then match hideModal with
       | Some hide => hide
       | None => ret tt
       end
  else ret tt.

End EditUserModal.

(** ** The invite form *)

Module AddingUserModal.
Section WithMessages.

(** The messages the form shows under the email field, and its test of
    the format of an email; the form is not among the sources. *)
Variables required_message format_message : string.
Variable valid_format : string -> bool.

(** Modelled from the spec: the form of the invite dialog is not among
    the sources.  [InviteUser(email)] has the precondition "email
    non-empty, valid format"; the checks are local and their failures are
    reported inline, under the field. *)
Definition validate (email : string) : list (string * string) :=
  if String.eqb email "" then [("email", required_message)]
  else if valid_format email then []
  else [("email", format_message)].

(** Modelled from the spec: "required-field and enum-membership checks
    occur before any remote call; failures are reported inline and no
    call is issued".  Only an email that passes the checks is handed to
    [onOk], as the form of [EditUserModal] does with its values. *)
Definition handleSubmit (onOk : string -> M unit) (email : string) : M unit :=
  match validate email with
  | [] => set_formErrors [] ;; onOk email
  | errors => set_formErrors errors
  end.

(** Modelled from the spec: [InviteUser(email)] is the form submitted
    with [handleAddUserOk] of [useAddUser] as its [onOk]. *)
Definition InviteUser (result_code : RemoteCall -> list RemoteCall -> Z)
    (email : string) : M unit :=
  handleSubmit (UserSetting.handleAddUserOk result_code) email.

End WithMessages.
End AddingUserModal.

(** ** Runs of several events *)

(** The invite form submitted once for each email, oldest first. *)
Definition submit_invites (result_code : RemoteCall -> list RemoteCall -> Z)
    (emails : list string) (w : World) : World :=
  fold_left
    (fun w email => exec (UserSetting.handleAddUserOk result_code email) w)
    emails w.

(** ** Key lists in which no key is a prefix of another *)

Definition incomparable (k : string) (ks : list string) : bool :=
  forallb
    (fun k' => negb (String.prefix k k') && negb (String.prefix k' k)) ks.

Fixpoint prefix_free (ks : list string) : bool :=
  match ks with
  | [] => true
  | k :: rest => incomparable k rest && prefix_free rest
  end.

Definition nonempty_keys (ks : list string) : bool :=
  forallb (fun k => negb (String.eqb k "")) ks.

(** * Properties *)

(** ** Strings and [find] *)

Lemma startsWith_empty (s : string) : startsWith s "" = true.
Proof. destruct s; reflexivity. Qed.

Lemma startsWith_refl (s : string) : startsWith s s = true.
Proof.
  unfold startsWith.
  induction s as [|c s IH]; simpl; [reflexivity|].
  destruct (Ascii.ascii_dec c c) as [_|ne]; [exact IH | now elim ne].
Qed.

Lemma find_no_match {A : Type} (f : A -> bool) (l : list A) :
  (forall x, In x l -> f x = false) -> find f l = None.
Proof.
  induction l as [|a l IH]; intros H; simpl; [reflexivity|].
  rewrite (H a (or_introl eq_refl)).
  apply IH. intros x Hx. apply H. now right.
Qed.

Lemma find_skips_no_match {A : Type} (f : A -> bool) (before l : list A) :
  (forall x, In x before -> f x = false) ->
  find f (before ++ l) = find f l.
Proof.
  induction before as [|a before IH]; intros H; simpl; [reflexivity|].
  rewrite (H a (or_introl eq_refl)).
  apply IH. intros x Hx. apply H. now right.
Qed.

(** ** The selected key of the layouts *)

(** Without a top-level key that is a prefix of the path, the result is
    the default. *)
Lemma find_key_or_no_match (dflt : string) (menuItems : list MenuItem)
    (pathname : string) :
  (forall n, In n menuItems -> startsWith pathname (key n) = false) ->
  find_key_or dflt menuItems pathname = dflt.
Proof.
  intros H. unfold find_key_or.
  rewrite (find_no_match _ _ H). reflexivity.
Qed.

(** The first top-level item whose key is a prefix of the path decides,
    whatever comes after it and whatever its children are. *)
Lemma find_key_or_first_match (dflt : string) (before after : list MenuItem)
    (n : MenuItem) (pathname : string) :
  (forall m, In m before -> startsWith pathname (key m) = false) ->
  startsWith pathname (key n) = true ->
  find_key_or dflt (before ++ n :: after) pathname = js_or (Some (key n)) dflt.
Proof.
  intros Hbefore Hn. unfold find_key_or.
  rewrite (find_skips_no_match _ _ _ Hbefore). simpl.
  rewrite Hn. reflexivity.
Qed.

(** The result is always the default or a top-level key: no key of a
    child is ever selected for its own sake. *)
Lemma find_key_or_top_level (dflt : string) (menuItems : list MenuItem)
    (pathname : string) :
  find_key_or dflt menuItems pathname = dflt \/
  In (find_key_or dflt menuItems pathname) (map key menuItems).
Proof.
  unfold find_key_or.
  destruct (find _ menuItems) as [n|] eqn:E; simpl; [|now left].
  destruct (String.eqb (key n) ""); [now left|right].
  apply in_map. exact (proj1 (find_some _ _ E)).
Qed.

(** The keys of the tree of [next.tsx] are pairwise distinct. *)
Lemma NextLayout_keys_unique (t : string -> string) :
  NoDup (tree_keys (NextLayout.menuItems t)).
Proof.
  cbn.
  repeat (constructor;
          [ cbn; intros H;
            repeat (destruct H as [H|H]; [discriminate H|]); exact H | ]).
  constructor.
Qed.

(** C1, the claim as stated fails on the [App] layout, whose tree has
    the same [/user] group as the tree of [next.tsx]: both [/user] and
    [/user/profile] are keys of the tree, yet for the path
    [/user/profile/edit] the selected keys do not contain
    [/user/profile], and there are no open keys at all. *)
Lemma AppLayout_profile_edit_not_longest_prefix :
  In "/user" (tree_keys (AppLayout.menuItems (fun s => s))) /\
  In "/user/profile" (tree_keys (AppLayout.menuItems (fun s => s))) /\
  ~ (In "/user/profile"
       (selectedKeys (AppLayout.menu (fun s => s) "/user/profile/edit")) /\
     exists open,
       openKeys (AppLayout.menu (fun s => s) "/user/profile/edit") = Some open /\
       In "/user" open /\ In "/user/profile" open).
Proof.
  split; [cbn; tauto|].
  split; [cbn; tauto|].
  intros [Hsel _]. cbn in Hsel.
  destruct Hsel as [H|[]]. discriminate H.
Qed.

(** C1, as amended: in every menu tree in which the first top-level item
    whose key is a prefix of [/user/profile/edit] has the key [/user],
    resolving [/user/profile/edit] selects [/user], whatever the children
    of the items are: the first matching top-level key wins and children
    are not consulted.  In the tree of the [App] layout the selected keys
    are exactly [/user], and the layout hands no open keys to the menu. *)
Theorem resolve_profile_edit_selects_first_top_level_match
    (t : string -> string) (dflt : string) (before after : list MenuItem)
    (n : MenuItem)
    (Hkey : key n = "/user")
    (Hbefore : forall m, In m before ->
                 startsWith "/user/profile/edit" (key m) = false) :
  find_key_or dflt (before ++ n :: after) "/user/profile/edit" = "/user" /\
  selectedKeys (AppLayout.menu t "/user/profile/edit") = ["/user"] /\
  openKeys (AppLayout.menu t "/user/profile/edit") = None /\
  defaultOpenKeys (AppLayout.menu t "/user/profile/edit") = None.
Proof.
  split; [|repeat split].
  rewrite (find_key_or_first_match dflt before after n _ Hbefore).
  - rewrite Hkey. reflexivity.
  - rewrite Hkey. reflexivity.
Qed.

Lemma resolve_profile_edit_selects_first_top_level_match_witness :
  find_key_or "/knowledge"
    ([Item "/chat" "chat" None None None] ++
     Item "/user" "user" None
       (Some [Item "/user/profile" "profile" None None None]) None ::
     [Item "/user/profile" "profile" None None None])
    "/user/profile/edit" = "/user" /\
  selectedKeys (AppLayout.menu (fun s => s) "/user/profile/edit") = ["/user"] /\
  openKeys (AppLayout.menu (fun s => s) "/user/profile/edit") = None /\
  defaultOpenKeys (AppLayout.menu (fun s => s) "/user/profile/edit") = None.
Proof.
  apply (resolve_profile_edit_selects_first_top_level_match (fun s => s)
           "/knowledge" [Item "/chat" "chat" None None None]).
  - reflexivity.
  - intros m [<-|[]]. reflexivity.
Defined.

(** C8 fails on [next.tsx]: whatever the path, the callback of
    [selectedKey] reads the name [useLogout], which the file does not
    bind, before it reaches its [return]; it throws and the layout
    renders no menu.  At [/unknown], of which no key is a prefix, it
    therefore does not return the default.  The [App] layout, which has
    the same expression without that statement, returns [/knowledge]
    there, the key of its first top-level item. *)
Theorem NextLayout_selectedKey_throws (t : string -> string)
    (pathname : string) :
  NextLayout.selectedKey t pathname = inl (ReferenceError "useLogout") /\
  NextLayout.menu t pathname = inl (ReferenceError "useLogout") /\
  NextLayout.selectedKey t "/unknown" <> inr "/knowledge" /\
  AppLayout.selectedKey t "/unknown" = "/knowledge" /\
  hd_error (map key (AppLayout.menuItems t)) = Some "/knowledge".
Proof.
  repeat split. discriminate.
Qed.

(** In the [App] layout a path of which no top-level key is a prefix
    selects [/knowledge], the key of the first top-level item. *)
Lemma AppLayout_no_match_selects_first_key (t : string -> string)
    (pathname : string) :
  (forall n, In n (AppLayout.menuItems t) ->
     startsWith pathname (key n) = false) ->
  AppLayout.selectedKey t pathname = "/knowledge" /\
  hd_error (map key (AppLayout.menuItems t)) = Some "/knowledge".
Proof.
  intros H. split; [exact (find_key_or_no_match _ _ _ H)|reflexivity].
Qed.

(** In the [Routes]-keyed layout such a path selects [Routes.Home]; the
    first item carries [Routes.Datasets]. *)
Lemma RoutesLayout_no_match_selects_Home (t : string -> string)
    (Home Datasets Chats Searches Agents Files : string) (pathname : string) :
  (forall n,
     In n (RoutesLayout.menuItems t Datasets Chats Searches Agents Files) ->
     startsWith pathname (key n) = false) ->
  RoutesLayout.selectedKey t Home Datasets Chats Searches Agents Files
    pathname = Home /\
  hd_error
    (map key (RoutesLayout.menuItems t Datasets Chats Searches Agents Files)) =
    Some Datasets.
Proof.
  intros H. split; [exact (find_key_or_no_match _ _ _ H)|reflexivity].
Qed.

(** ** The tree of the [Sidebar] *)

(** C9 fails on the tree of the [Sidebar]: its two group nodes, the sixth
    and seventh top-level items, both carry the empty key, so the keys of
    the tree are not pairwise distinct. *)
Theorem Sidebar_group_keys_collide (t : string -> string) :
  map key (skipn 5 (Sidebar.items t)) = [""; ""] /\
  ~ NoDup (tree_keys (Sidebar.items t)).
Proof.
  split; [reflexivity|].
  cbn. intros H.
  do 5 (apply NoDup_cons_iff in H; destruct H as [_ H]).
  apply NoDup_cons_iff in H. destruct H as [H _].
  apply H. cbn. tauto.
Qed.

(** The menu opens the groups under the keys [system] and [user], which
    are the keys of no node of the tree. *)
Lemma Sidebar_defaultOpenKeys_name_no_node (t : string -> string) :
  defaultOpenKeys (Sidebar.menu t "/") = Some ["system"; "user"] /\
  ~ In "system" (tree_keys (Sidebar.items t)) /\
  ~ In "user" (tree_keys (Sidebar.items t)).
Proof.
  split; [reflexivity|].
  split; cbn; intros H;
    repeat (destruct H as [H|H]; [discriminate H|]); exact H.
Qed.

(** C10: the click handler of the [Sidebar] navigates exactly when the
    key begins with [/].  Then the key becomes the current path and one
    navigation to it is recorded; otherwise, as for the empty key of a
    group header, the world is left as it was. *)
Theorem handleMenuClick_navigates_iff_leading_slash (key : string)
    (w : World) :
  (startsWith key "/" = true ->
   navigations (exec (Sidebar.handleMenuClick key) w) = navigations w ++ [key] /\
   pathname (exec (Sidebar.handleMenuClick key) w) = key) /\
  (startsWith key "/" = false ->
   exec (Sidebar.handleMenuClick key) w = w) /\
  (navigations (exec (Sidebar.handleMenuClick key) w) <> navigations w <->
   startsWith key "/" = true) /\
  exec (Sidebar.handleMenuClick "") w = w.
Proof.
  unfold Sidebar.handleMenuClick, exec.
  destruct (startsWith key "/") eqn:E; cbn.
  - repeat split; try discriminate; try reflexivity.
    intros _ H. apply (f_equal (@List.length string)) in H.
    rewrite length_app in H. simpl in H. lia.
  - repeat split; try discriminate; try reflexivity.
    intros H. now elim H.
Qed.

Lemma handleMenuClick_navigates_iff_leading_slash_witness :
  navigations (exec (Sidebar.handleMenuClick "/files") (initial "/")) = ["/files"] /\
  exec (Sidebar.handleMenuClick "system") (initial "/") = initial "/".
Proof.
  split.
  - apply (proj1 (handleMenuClick_navigates_iff_leading_slash "/files" (initial "/"))).
    reflexivity.
  - apply (proj1 (proj2 (handleMenuClick_navigates_iff_leading_slash
                           "system" (initial "/")))).
    reflexivity.
Defined.

(** ** The hooks of the team page *)

Section Hooks.

Variable result_code : RemoteCall -> list RemoteCall -> Z.

(** Every mutation function of the hooks issues exactly its own call and
    touches nothing else. *)
Lemma remote_issues_one_call (c : RemoteCall) (w : World) :
  UserSetting.remote result_code c w =
    (result_code c (calls w),
     mkWorld (calls w ++ [c]) (addingTenantModalVisible w)
       (editingUserModalVisible w) (editingUser w) (confirm w)
       (formErrors w) (invalidated w) (console w) (pathname w)
       (navigations w)).
Proof. reflexivity. Qed.

(** [handleAddUserOk] has no validation step: whatever the email, it
    issues one [addTenantUser] call for it and shows no field message. *)
Lemma handleAddUserOk_calls (email : string) (w : World) :
  calls (exec (UserSetting.handleAddUserOk result_code email) w) =
    calls w ++ [AddTenantUser email] /\
  formErrors (exec (UserSetting.handleAddUserOk result_code email) w) =
    formErrors w.
Proof.
  unfold UserSetting.handleAddUserOk, UserSetting.addTenantUser, exec, bind.
  rewrite remote_issues_one_call.
  destruct (Z.eqb _ 0); split; reflexivity.
Qed.

Lemma handleAddUserOk_visible (email : string) (w : World) :
  addingTenantModalVisible
    (exec (UserSetting.handleAddUserOk result_code email) w) =
  if Z.eqb (result_code (AddTenantUser email) (calls w)) 0
  then false else addingTenantModalVisible w.
Proof.
  unfold UserSetting.handleAddUserOk, UserSetting.addTenantUser, exec, bind.
  rewrite remote_issues_one_call.
  destruct (Z.eqb _ 0); reflexivity.
Qed.

End Hooks.

(** [handleAddUserOk] performs no validation of its own: for every
    email it is given, the empty string included, it issues exactly one
    [addTenantUser] call carrying that email and leaves the field
    messages as they were.  The checks are the business of the form. *)
Lemma handleAddUserOk_issues_call_for_any_email
    (result_code : RemoteCall -> list RemoteCall -> Z) (email : string)
    (w : World) :
  calls (exec (UserSetting.handleAddUserOk result_code email) w) =
    calls w ++ [AddTenantUser email] /\
  formErrors (exec (UserSetting.handleAddUserOk result_code email) w) =
    formErrors w.
Proof. apply handleAddUserOk_calls. Qed.

(** C2: the invite form submitted with the empty email fails the
    required-field check.  The failure is reported inline, as the
    message under the email field; no remote call is issued, in
    particular no [addTenantUser] call; and the rest of the world, the
    invite dialog included, is as it was. *)
Theorem InviteUser_empty_email_fails_validation
    (required_message format_message : string)
    (valid_format : string -> bool)
    (result_code : RemoteCall -> list RemoteCall -> Z) (w : World) :
  AddingUserModal.validate required_message format_message valid_format "" =
    [("email", required_message)] /\
  calls (exec (AddingUserModal.InviteUser required_message format_message
                 valid_format result_code "") w) = calls w /\
  formErrors (exec (AddingUserModal.InviteUser required_message format_message
                      valid_format result_code "") w) =
    [("email", required_message)] /\
  exec (AddingUserModal.InviteUser required_message format_message
          valid_format result_code "") w =
    exec (set_formErrors [("email", required_message)]) w.
Proof. repeat split. Qed.

(** An email that passes the checks of the form is handed to
    [handleAddUserOk], which issues the call for it. *)
Lemma InviteUser_valid_email_is_sent
    (required_message format_message : string)
    (valid_format : string -> bool)
    (result_code : RemoteCall -> list RemoteCall -> Z) (email : string)
    (w : World) :
  email <> "" -> valid_format email = true ->
  calls (exec (AddingUserModal.InviteUser required_message format_message
                 valid_format result_code email) w) =
    calls w ++ [AddTenantUser email].
Proof.
  intros Hne Hvalid.
  unfold AddingUserModal.InviteUser, AddingUserModal.handleSubmit,
    AddingUserModal.validate.
  apply String.eqb_neq in Hne. rewrite Hne, Hvalid.
  unfold exec, bind. cbn.
  destruct (Z.eqb _ 0); reflexivity.
Qed.

(** C3: when the invite dialog is open and [handleAddUserOk] is run for
    an email, the dialog is closed afterwards if the result code of the
    [addTenantUser] call is [0], and still open if the code is not [0]. *)
Theorem handleAddUserOk_closes_dialog_iff_code_zero
    (result_code : RemoteCall -> list RemoteCall -> Z) (email : string)
    (w : World)
    (Hopen : addingTenantModalVisible w = true) :
  (result_code (AddTenantUser email) (calls w) = 0%Z ->
   addingTenantModalVisible
     (exec (UserSetting.handleAddUserOk result_code email) w) = false) /\
  (result_code (AddTenantUser email) (calls w) <> 0%Z ->
   addingTenantModalVisible
     (exec (UserSetting.handleAddUserOk result_code email) w) = true).
Proof.
  rewrite handleAddUserOk_visible.
  split; intros H.
  - rewrite H. reflexivity.
  - apply Z.eqb_neq in H. rewrite H. exact Hopen.
Qed.

Lemma handleAddUserOk_closes_dialog_iff_code_zero_witness :
  addingTenantModalVisible
    (exec (UserSetting.handleAddUserOk (fun _ _ => 0%Z) "a@b.com")
       (exec UserSetting.showAddingTenantModal (initial "/user-setting/team")))
    = false /\
  addingTenantModalVisible
    (exec (UserSetting.handleAddUserOk (fun _ _ => 102%Z) "a@b.com")
       (exec UserSetting.showAddingTenantModal (initial "/user-setting/team")))
    = true.
Proof.
  split.
  - apply (proj1 (handleAddUserOk_closes_dialog_iff_code_zero
                    (fun _ _ => 0%Z) "a@b.com"
                    (exec UserSetting.showAddingTenantModal
                       (initial "/user-setting/team")) eq_refl)).
    reflexivity.
  - apply (proj2 (handleAddUserOk_closes_dialog_iff_code_zero
                    (fun _ _ => 102%Z) "a@b.com"
                    (exec UserSetting.showAddingTenantModal
                       (initial "/user-setting/team")) eq_refl)).
    discriminate.
Defined.

(** C4: [handleDeleteTenantUser] is gated by the confirmation dialog.
    Running it for a user id only puts the dialog on screen and issues no
    call; canceling the dialog removes it and issues no call either;
    confirming it issues exactly one [deleteTenantUser] call, carrying
    that user id. *)
Theorem handleDeleteTenantUser_is_confirmation_gated
    (t : string -> string)
    (result_code : RemoteCall -> list RemoteCall -> Z) (userId : string)
    (w : World) :
  calls (exec (UserSetting.handleDeleteTenantUser t userId) w) = calls w /\
  confirm (exec (UserSetting.handleDeleteTenantUser t userId) w) =
    Some (mkConfirm (t "setting.sureDelete") (DeleteTenantUserOnOk userId)) /\
  calls (exec UserSetting.confirmCancel
           (exec (UserSetting.handleDeleteTenantUser t userId) w)) = calls w /\
  confirm (exec UserSetting.confirmCancel
             (exec (UserSetting.handleDeleteTenantUser t userId) w)) = None /\
  calls (exec (UserSetting.confirmOk result_code)
           (exec (UserSetting.handleDeleteTenantUser t userId) w)) =
    calls w ++ [DeleteTenantUser (mkDeleteArgs (Some userId) None)] /\
  confirm (exec (UserSetting.confirmOk result_code)
             (exec (UserSetting.handleDeleteTenantUser t userId) w)) = None.
Proof.
  repeat split.
  - unfold UserSetting.confirmOk, exec. cbn.
    destruct (Z.eqb _ 0); reflexivity.
  - unfold UserSetting.confirmOk, exec. cbn.
    destruct (Z.eqb _ 0); reflexivity.
Qed.

(** The sibling [handleQuitTenantUser] is gated in the same way; its
    call carries both the user id and the tenant id. *)
Lemma handleQuitTenantUser_is_confirmation_gated
    (t : string -> string)
    (result_code : RemoteCall -> list RemoteCall -> Z)
    (userId tenantId : string) (w : World) :
  calls (exec (UserSetting.handleQuitTenantUser t userId tenantId) w) = calls w /\
  calls (exec UserSetting.confirmCancel
           (exec (UserSetting.handleQuitTenantUser t userId tenantId) w)) =
    calls w /\
  calls (exec (UserSetting.confirmOk result_code)
           (exec (UserSetting.handleQuitTenantUser t userId tenantId) w)) =
    calls w ++
    [DeleteTenantUser (mkDeleteArgs (Some userId) (Some tenantId))].
Proof. repeat split. Qed.

(** Confirming or canceling while no dialog is on screen does nothing. *)
Lemma confirm_without_dialog
    (result_code : RemoteCall -> list RemoteCall -> Z) (w : World) :
  confirm w = None ->
  exec (UserSetting.confirmOk result_code) w = w /\
  calls (exec UserSetting.confirmCancel w) = calls w.
Proof.
  intros H. unfold UserSetting.confirmOk, exec. rewrite H. split; reflexivity.
Qed.

(** C5, the claim as stated fails: a call that is answered with a
    non-zero result code has failed, yet its promise is fulfilled and
    the query is invalidated all the same. *)
Lemma useUpdateUserStatus_invalidates_on_failure_code :
  (500 <> 0)%Z /\
  ~ (invalidated
       (exec (UserSetting.useUpdateUserStatus (fun _ _ _ => Fulfilled 500%Z)
                ("a@b.com", true)) (initial "/user-setting/team")) =
     invalidated (initial "/user-setting/team")).
Proof. split; [discriminate|]. cbn. discriminate. Qed.

(** C5, as amended: [useUpdateUserStatus] issues the [updateUserStatus]
    call with ['on'] or ['off'].  Whenever the promise of the call is
    fulfilled, whatever result code the answer carries, exactly one
    invalidation is requested, for the query key [['listTenantUser']];
    when the promise is rejected, no invalidation is requested and the
    error goes to the console. *)
Theorem useUpdateUserStatus_invalidates_on_success_only
    (status_outcome : string -> ActivateStatus -> list RemoteCall -> Settled Z)
    (email : string) (isActive : bool) (w : World) :
  calls (exec (UserSetting.useUpdateUserStatus status_outcome (email, isActive)) w) =
    calls w ++ [UpdateUserStatus email (if isActive then on else off)] /\
  (forall data,
     status_outcome email (if isActive then on else off) (calls w) =
       Fulfilled data ->
     invalidated
       (exec (UserSetting.useUpdateUserStatus status_outcome (email, isActive)) w) =
       invalidated w ++ [["listTenantUser"]]) /\
  (forall error,
     status_outcome email (if isActive then on else off) (calls w) =
       Rejected error ->
     invalidated
       (exec (UserSetting.useUpdateUserStatus status_outcome (email, isActive)) w) =
       invalidated w /\
     console
       (exec (UserSetting.useUpdateUserStatus status_outcome (email, isActive)) w) =
       console w ++ [ConsoleError "Failed to update user status:" error]).
Proof.
  unfold UserSetting.useUpdateUserStatus, UserSetting.useMutation,
    UserSetting.updateUserStatus, exec, bind.
  split; [|split].
  - destruct (status_outcome _ _ _); reflexivity.
  - intros data H. rewrite H. reflexivity.
  - intros error H. rewrite H. split; reflexivity.
Qed.

Lemma useUpdateUserStatus_invalidates_on_success_only_witness :
  invalidated
    (exec (UserSetting.useUpdateUserStatus (fun _ _ _ => Fulfilled 0%Z)
             ("a@b.com", true)) (initial "/user-setting/team")) =
    [["listTenantUser"]] /\
  invalidated
    (exec (UserSetting.useUpdateUserStatus
             (fun _ _ _ => Rejected "Network Error")
             ("a@b.com", false)) (initial "/user-setting/team")) = [].
Proof.
  split.
  - apply (proj1 (proj2 (useUpdateUserStatus_invalidates_on_success_only
                           (fun _ _ _ => Fulfilled 0%Z) "a@b.com" true
                           (initial "/user-setting/team"))) 0%Z).
    reflexivity.
  - apply (proj2 (proj2 (useUpdateUserStatus_invalidates_on_success_only
                           (fun _ _ _ => Rejected "Network Error")
                           "a@b.com" false
                           (initial "/user-setting/team"))) "Network Error").
    reflexivity.
Defined.


(** C6: [handleAgree] with [isAgree = true] issues exactly the call
    [agreeTenant(tenantId)], and with [isAgree = false] exactly one
    [deleteTenantUser] call carrying that tenant id and the id of the
    current user; in either case no other call is issued. *)
Theorem handleAgree_issues_exactly_one_call
    (result_code : RemoteCall -> list RemoteCall -> Z)
    (user_id_of_session : string) (tenantId : string) (w : World) :
  calls (exec (UserSetting.handleAgree result_code user_id_of_session
                 tenantId true) w) =
    calls w ++ [AgreeTenant tenantId] /\
  calls (exec (UserSetting.handleAgree result_code user_id_of_session
                 tenantId false) w) =
    calls w ++
    [DeleteTenantUser (mkDeleteArgs (Some user_id_of_session) (Some tenantId))].
Proof. split; reflexivity. Qed.

(** C7, the claim as stated fails on [handleEditUserOk]: confirming the
    edit of a user issues no call, closes the dialog and clears the edit
    buffer, but nothing is put before the user. *)
Lemma handleEditUserOk_surfaces_nothing :
  ~ (calls (exec (UserSetting.handleEditUserOk (mkFormData "Ann" Owner))
              (exec (UserSetting.handleEditUser
                       (mkEditingUser "u1" "ann" "a@b.com" Normal))
                 (initial "/user-setting/team"))) = [] /\
     editingUserModalVisible
       (exec (UserSetting.handleEditUserOk (mkFormData "Ann" Owner))
          (exec (UserSetting.handleEditUser
                   (mkEditingUser "u1" "ann" "a@b.com" Normal))
             (initial "/user-setting/team"))) = false /\
     editingUser
       (exec (UserSetting.handleEditUserOk (mkFormData "Ann" Owner))
          (exec (UserSetting.handleEditUser
                   (mkEditingUser "u1" "ann" "a@b.com" Normal))
             (initial "/user-setting/team"))) = None /\
     user_notice
       (exec (UserSetting.handleEditUserOk (mkFormData "Ann" Owner))
          (exec (UserSetting.handleEditUser
                   (mkEditingUser "u1" "ann" "a@b.com" Normal))
             (initial "/user-setting/team")))).
Proof.
  intros (_ & _ & _ & [H|H]); apply H; reflexivity.
Qed.

(** C7, as amended: confirming the edit of a user issues no remote call,
    closes the edit dialog and clears the edit buffer.  The only trace of
    the missing remote operation is one console line, [Would update
    user:] with the id of the user being edited and the submitted data;
    no message and no dialog is put before the user, and no query is
    invalidated. *)
Theorem handleEditUserOk_closes_and_logs (data : FormData) (w : World) :
  calls (exec (UserSetting.handleEditUserOk data) w) = calls w /\
  editingUserModalVisible (exec (UserSetting.handleEditUserOk data) w) = false /\
  editingUser (exec (UserSetting.handleEditUserOk data) w) = None /\
  console (exec (UserSetting.handleEditUserOk data) w) =
    console w ++
    [ConsoleLog "Would update user:" (option_map user_id (editingUser w)) data] /\
  formErrors (exec (UserSetting.handleEditUserOk data) w) = formErrors w /\
  confirm (exec (UserSetting.handleEditUserOk data) w) = confirm w /\
  invalidated (exec (UserSetting.handleEditUserOk data) w) = invalidated w.
Proof. repeat split. Qed.

(** The form of [EditUserModal] hands valid values on to [onOk] and keeps
    values with an empty name back, showing the message under the field. *)
Lemma EditUserModal_validates_before_onOk (t : string -> string)
    (role : TenantRole) (w : World) :
  exec (UserSetting.handleSubmit t (Some UserSetting.handleEditUserOk)
          (mkFormData "" role)) w =
    exec (set_formErrors [("nickname", t "common.required")]) w /\
  forall c s,
    exec (UserSetting.handleSubmit t (Some UserSetting.handleEditUserOk)
            (mkFormData (String c s) role)) w =
    exec (UserSetting.handleEditUserOk (mkFormData (String c s) role))
      (exec (set_formErrors []) w).
Proof. split; reflexivity. Qed.

(** * Further properties of the code *)

(** ** Prefixes *)

Lemma prefix_app (k s : string) : String.prefix k (k ++ s) = true.
Proof.
  induction k as [|c k IH]; simpl; [destruct s; reflexivity|].
  destruct (Ascii.ascii_dec c c) as [_|ne]; [exact IH | now elim ne].
Qed.

Lemma prefix_trans (a b p : string) :
  String.prefix a b = true -> String.prefix b p = true ->
  String.prefix a p = true.
Proof.
  revert a b. induction p as [|c p IH]; intros a b Hab Hbp.
  - destruct b as [|cb b]; [|discriminate Hbp].
    destruct a as [|ca a]; [reflexivity|discriminate Hab].
  - destruct a as [|ca a]; [reflexivity|].
    destruct b as [|cb b]; [discriminate Hab|].
    simpl in *.
    destruct (Ascii.ascii_dec ca cb) as [->|]; [|discriminate Hab].
    destruct (Ascii.ascii_dec cb c) as [->|]; [|discriminate Hbp].
    exact (IH a b Hab Hbp).
Qed.

(** Two prefixes of one string are prefixes of each other, one way or
    the other. *)
Lemma prefix_comparable (a b p : string) :
  String.prefix a p = true -> String.prefix b p = true ->
  String.prefix a b = true \/ String.prefix b a = true.
Proof.
  revert a b. induction p as [|c p IH]; intros a b Ha Hb.
  - destruct a as [|ca a]; [left; destruct b; reflexivity|discriminate Ha].
  - destruct a as [|ca a]; [left; destruct b; reflexivity|].
    destruct b as [|cb b]; [now right|].
    simpl in *.
    destruct (Ascii.ascii_dec ca c) as [->|]; [|discriminate Ha].
    destruct (Ascii.ascii_dec cb c) as [->|]; [|discriminate Hb].
    destruct (Ascii.ascii_dec c c) as [_|ne]; [|now elim ne].
    exact (IH a b Ha Hb).
Qed.

Lemma incomparable_spec (k : string) (ks : list string) (k' : string) :
  incomparable k ks = true -> In k' ks ->
  String.prefix k k' = false /\ String.prefix k' k = false.
Proof.
  unfold incomparable. intros H Hin.
  rewrite forallb_forall in H. specialize (H k' Hin).
  apply andb_true_iff in H. destruct H as [H1 H2].
  apply negb_true_iff in H1. apply negb_true_iff in H2. now split.
Qed.

Lemma prefix_free_spec (ks : list string) :
  prefix_free ks = true ->
  forall k1 k2 p, In k1 ks -> In k2 ks ->
    String.prefix k1 p = true -> String.prefix k2 p = true -> k1 = k2.
Proof.
  induction ks as [|k ks IH]; intros H k1 k2 p H1 H2 P1 P2; [destruct H1|].
  simpl in H. apply andb_true_iff in H. destruct H as [Hk Hks].
  destruct H1 as [<-|H1], H2 as [<-|H2].
  - reflexivity.
  - destruct (incomparable_spec _ _ _ Hk H2) as [A B].
    destruct (prefix_comparable _ _ _ P1 P2); congruence.
  - destruct (incomparable_spec _ _ _ Hk H1) as [A B].
    destruct (prefix_comparable _ _ _ P1 P2); congruence.
  - exact (IH Hks k1 k2 p H1 H2 P1 P2).
Qed.

(** ** The expression [find(...)?.key || dflt] *)

(** What is selected is the default, or the non-empty key of a top-level
    item that is a prefix of the path. *)
Theorem find_key_or_sound (dflt : string) (menuItems : list MenuItem)
    (pathname : string) :
  find_key_or dflt menuItems pathname = dflt \/
  exists n, In n menuItems /\ key n <> "" /\
            startsWith pathname (key n) = true /\
            find_key_or dflt menuItems pathname = key n.
Proof.
  unfold find_key_or.
  destruct (find _ menuItems) as [n|] eqn:E; simpl; [|now left].
  destruct (String.eqb (key n) "") eqn:K; [now left|right].
  apply find_some in E. destruct E as [Hin Hp].
  exists n. repeat split; try assumption.
  now apply String.eqb_neq.
Qed.

(** An item with the empty key matches every path, and its key then
    gives way to the default: when no item before it matches, the result
    is the default whatever comes after it. *)
Theorem find_key_or_empty_key_hides_rest (dflt : string)
    (before after : list MenuItem) (n : MenuItem) (pathname : string)
    (Hkey : key n = "")
    (Hbefore : forall m, In m before -> startsWith pathname (key m) = false) :
  find_key_or dflt (before ++ n :: after) pathname = dflt.
Proof.
  rewrite (find_key_or_first_match dflt before after n pathname Hbefore).
  - rewrite Hkey. reflexivity.
  - rewrite Hkey. apply startsWith_empty.
Qed.

Lemma find_key_or_empty_key_hides_rest_witness :
  find_key_or "/knowledge"
    ([Item "/chat" "chat" None None None] ++
     Item "" "group" None
       (Some [Item "/file/shared" "shared" None None None]) None ::
     [Item "/file" "file" None None None]) "/file/1" = "/knowledge".
Proof.
  apply (find_key_or_empty_key_hides_rest "/knowledge"
           [Item "/chat" "chat" None None None]).
  - reflexivity.
  - intros m [<-|[]]. reflexivity.
Defined.

(** The first match wins, not the longest: an item that comes after an
    item whose key is a prefix of its own is never the one found.  For
    every path its key is a prefix of, an item before it is found. *)
Theorem find_key_or_earlier_prefix_wins (dflt : string)
    (before after : list MenuItem) (m n : MenuItem) (pathname : string)
    (Hm : In m before)
    (Hprefix : startsWith (key n) (key m) = true)
    (Hpath : startsWith pathname (key n) = true) :
  exists x, In x before /\ startsWith pathname (key x) = true /\
            find_key_or dflt (before ++ n :: after) pathname =
              js_or (Some (key x)) dflt.
Proof.
  assert (Hpm : startsWith pathname (key m) = true)
    by exact (prefix_trans _ _ _ Hprefix Hpath).
  unfold find_key_or.
  destruct (find (fun item => startsWith pathname (key item)) before)
    as [x|] eqn:E.
  - exists x. destruct (find_some _ _ E) as [Hin Hx].
    repeat split; try assumption.
    assert (F : find (fun item => startsWith pathname (key item))
                  (before ++ n :: after) = Some x).
    { clear - E. induction before as [|a l IH]; simpl in *; [discriminate E|].
      destruct (startsWith pathname (key a)); [exact E|exact (IH E)]. }
    rewrite F. reflexivity.
  - pose proof (find_none _ _ E m Hm) as C. simpl in C. congruence.
Qed.

Lemma find_key_or_earlier_prefix_wins_witness :
  exists x,
    In x [Item "/user" "user" None None None] /\
    startsWith "/user/profile/edit" (key x) = true /\
    find_key_or "/knowledge"
      ([Item "/user" "user" None None None] ++
       Item "/user/profile" "profile" None None None :: [])
      "/user/profile/edit" = js_or (Some (key x)) "/knowledge".
Proof.
  apply (find_key_or_earlier_prefix_wins "/knowledge"
           [Item "/user" "user" None None None] []
           (Item "/user" "user" None None None)
           (Item "/user/profile" "profile" None None None)
           "/user/profile/edit").
  - left. reflexivity.
  - reflexivity.
  - reflexivity.
Defined.

Lemma find_key_or_extends_key (dflt : string) (menuItems : list MenuItem)
    (Hfree : prefix_free (map key menuItems) = true)
    (Hnonempty : nonempty_keys (map key menuItems) = true)
    (n : MenuItem) (Hn : In n menuItems) (rest : string) :
  find_key_or dflt menuItems (key n ++ rest) = key n.
Proof.
  induction menuItems as [|a l IH]; [destruct Hn|].
  simpl in Hfree, Hnonempty.
  apply andb_true_iff in Hfree. destruct Hfree as [Ha Hl].
  apply andb_true_iff in Hnonempty. destruct Hnonempty as [Na Nl].
  destruct Hn as [->|Hn].
  - unfold find_key_or. simpl. unfold startsWith. rewrite prefix_app. simpl.
    apply negb_true_iff in Na. rewrite Na. reflexivity.
  - assert (F : startsWith (key n ++ rest) (key a) = false).
    { destruct (startsWith (key n ++ rest) (key a)) eqn:E; [|reflexivity].
      destruct (incomparable_spec _ _ (key n) Ha (in_map key _ _ Hn)) as [A B].
      destruct (prefix_comparable _ _ _ E (prefix_app (key n) rest));
        congruence. }
    unfold find_key_or in *. simpl. rewrite F. exact (IH Hl Nl Hn).
Qed.

(** In a tree whose top-level keys are non-empty and of which none is a
    prefix of another, every path that extends the key of a top-level
    item selects exactly that key. *)
Theorem find_key_or_prefix_free (dflt : string) (menuItems : list MenuItem)
    (Hfree : prefix_free (map key menuItems) = true)
    (Hnonempty : nonempty_keys (map key menuItems) = true)
    (n : MenuItem) (Hn : In n menuItems) (rest : string) :
  find_key_or dflt menuItems (key n ++ rest) = key n.
Proof. exact (find_key_or_extends_key dflt menuItems Hfree Hnonempty n Hn rest). Qed.

Lemma find_key_or_prefix_free_witness :
  find_key_or "/home"
    [Item "/datasets" "a" None None None; Item "/files" "b" None None None]
    (key (Item "/files" "b" None None None) ++ "/42") = "/files".
Proof.
  apply (find_key_or_prefix_free "/home"
           [Item "/datasets" "a" None None None;
            Item "/files" "b" None None None]).
  - reflexivity.
  - reflexivity.
  - right. left. reflexivity.
Defined.

(** ** Clicking an entry, then resolving the new path *)

Lemma append_empty_r (s : string) : (s ++ "")%string = s.
Proof. induction s as [|c s IH]; simpl; [reflexivity|now rewrite IH]. Qed.

Lemma navigate_pathname (path : string) (w : World) :
  pathname (exec (navigate path) w) = path.
Proof. reflexivity. Qed.



(** The [Routes]-keyed layout, for every assignment of paths to the
    members of [Routes] in which the five item keys are non-empty, none
    is a prefix of another, and [Routes.Home] is none of them: every
    path that extends the key of an item selects that item, so clicking
    an entry highlights it; and the default [Routes.Home] is selected
    only when no key is a prefix of the path. *)
Theorem RoutesLayout_click_then_resolve (t : string -> string)
    (Home Datasets Chats Searches Agents Files : string)
    (Hfree : prefix_free [Datasets; Chats; Searches; Agents; Files] = true)
    (Hnonempty :
       nonempty_keys [Datasets; Chats; Searches; Agents; Files] = true)
    (Hhome : ~ In Home [Datasets; Chats; Searches; Agents; Files])
    (w : World) (n : MenuItem)
    (Hn : In n (RoutesLayout.menuItems t Datasets Chats Searches Agents Files)) :
  (forall rest,
     RoutesLayout.selectedKey t Home Datasets Chats Searches Agents Files
       (key n ++ rest) = key n) /\
  selectedKeys
    (RoutesLayout.menu t Home Datasets Chats Searches Agents Files
       (pathname (exec (NextLayoutEvents.onSelect (key n)) w))) = [key n] /\
  (forall pathname,
     RoutesLayout.selectedKey t Home Datasets Chats Searches Agents Files
       pathname = Home ->
     forall m,
       In m (RoutesLayout.menuItems t Datasets Chats Searches Agents Files) ->
       startsWith pathname (key m) = false).
Proof.
  assert (E : forall rest,
            RoutesLayout.selectedKey t Home Datasets Chats Searches Agents
              Files (key n ++ rest) = key n).
  { intros rest. apply find_key_or_extends_key;
      [exact Hfree|exact Hnonempty|exact Hn]. }
  split; [exact E|]. split.
  - unfold NextLayoutEvents.onSelect. rewrite navigate_pathname.
    unfold RoutesLayout.menu. simpl selectedKeys.
    specialize (E ""). rewrite append_empty_r in E. now rewrite E.
  - intros p Hp m Hm.
    destruct (startsWith p (key m)) eqn:S; [|reflexivity].
    destruct (find_key_or_sound Home
                (RoutesLayout.menuItems t Datasets Chats Searches Agents Files)
                p) as [D|(x & Hx & Nx & Px & Kx)].
    + unfold find_key_or in D.
      destruct (find (fun item => startsWith p (key item))
                  (RoutesLayout.menuItems t Datasets Chats Searches Agents
                     Files)) as [x|] eqn:F.
      * destruct (find_some _ _ F) as [Hx _].
        assert (Nx : String.eqb (key x) "" = false).
        { unfold nonempty_keys in Hnonempty.
          rewrite forallb_forall in Hnonempty.
          apply negb_true_iff. apply Hnonempty.
          exact (in_map key _ _ Hx). }
        simpl in D. rewrite Nx in D.
        exfalso. apply Hhome. rewrite <- D. exact (in_map key _ _ Hx).
      * pose proof (find_none _ _ F m Hm) as C. simpl in C. congruence.
    + exfalso. apply Hhome.
      unfold RoutesLayout.selectedKey in Hp. rewrite <- Hp, Kx.
      exact (in_map key _ _ Hx).
Qed.

Lemma RoutesLayout_click_then_resolve_witness :
  RoutesLayout.selectedKey (fun s => s) "/home" "/datasets" "/next-chats"
    "/next-searches" "/agents" "/files" ("/files" ++ "/42") = "/files".
Proof.
  refine (proj1 (RoutesLayout_click_then_resolve (fun s => s) "/home"
                   "/datasets" "/next-chats" "/next-searches" "/agents"
                   "/files" eq_refl eq_refl _ (initial "/")
                   (Item "/files" "fileManager" (Some File) None None) _)
            "/42").
  - cbn. intros H.
    repeat (destruct H as [H|H]; [discriminate H|]). exact H.
  - cbn. tauto.
Defined.

(** ** The selection of the [Sidebar] *)

(** The keys of the entries one can click: the main entries and the
    entries of the two groups. *)
Lemma Sidebar_getSelectedKeys_in (t : string -> string) (pathname k : string) :
  In k (Sidebar.getSelectedKeys t pathname) ->
  k = "/" /\ (pathname = "/" \/ pathname = "/home") \/
  k = "system" \/ k = "user" \/
  In k (map key (Sidebar.mainMenuItems t ++ Sidebar.systemManagementItems t ++
                 Sidebar.userManagementItems t)) /\
  startsWith pathname k = true.
Proof.
  unfold Sidebar.getSelectedKeys. intros H.
  rewrite !in_app_iff in H. rewrite !in_flat_map in H.
  destruct H as [(n & Hn & Hk)|[Hk|[(n & Hn & Hk)|(n & Hn & Hk)]]].
  - destruct (startsWith pathname (key n)) eqn:S; simpl in Hk;
      [destruct (String.eqb (key n) "/"); simpl in Hk|]; try contradiction.
    destruct Hk as [<-|[]]. right; right; right. split; [|exact S].
    apply in_map. apply in_or_app. now left.
  - destruct (String.eqb pathname "/") eqn:A; simpl in Hk.
    + destruct Hk as [<-|[]]. left. split; [reflexivity|].
      left. now apply String.eqb_eq.
    + destruct (String.eqb pathname "/home") eqn:B; simpl in Hk; [|destruct Hk].
      destruct Hk as [<-|[]]. left. split; [reflexivity|].
      right. now apply String.eqb_eq.
  - destruct (startsWith pathname (key n)) eqn:S; [|destruct Hk].
    destruct Hk as [<-|[<-|[]]]; [now right; left|].
    right; right; right. split; [|exact S].
    apply in_map. apply in_or_app. right. apply in_or_app. now left.
  - destruct (startsWith pathname (key n)) eqn:S; [|destruct Hk].
    destruct Hk as [<-|[<-|[]]]; [now right; right; left|].
    right; right; right. split; [|exact S].
    apply in_map. apply in_or_app. right. apply in_or_app. now right.
Qed.

(** At most one entry of the [Sidebar] is selected: two selected keys
    that are keys of entries are the same key. *)
Theorem Sidebar_selects_at_most_one_entry (t : string -> string)
    (pathname k1 k2 : string)
    (H1 : In k1 (Sidebar.getSelectedKeys t pathname))
    (H2 : In k2 (Sidebar.getSelectedKeys t pathname))
    (E1 : In k1 (tree_keys (Sidebar.items t)))
    (E2 : In k2 (tree_keys (Sidebar.items t))) :
  k1 = k2.
Proof.
  assert (L : forall k, In k (Sidebar.getSelectedKeys t pathname) ->
                In k (tree_keys (Sidebar.items t)) ->
                In k (map key (Sidebar.mainMenuItems t ++
                               Sidebar.systemManagementItems t ++
                               Sidebar.userManagementItems t)) /\
                String.prefix k pathname = true).
  { intros k Hk Ek.
    destruct (Sidebar_getSelectedKeys_in t pathname k Hk)
      as [[-> _]|[->|[->|[A B]]]].
    - exfalso. cbn in Ek.
      repeat (destruct Ek as [Ek|Ek]; [discriminate Ek|]). exact Ek.
    - exfalso. cbn in Ek.
      repeat (destruct Ek as [Ek|Ek]; [discriminate Ek|]). exact Ek.
    - exfalso. cbn in Ek.
      repeat (destruct Ek as [Ek|Ek]; [discriminate Ek|]). exact Ek.
    - split; assumption. }
  destruct (L k1 H1 E1) as [A1 P1]. destruct (L k2 H2 E2) as [A2 P2].
  refine (prefix_free_spec _ _ k1 k2 pathname A1 A2 P1 P2).
  reflexivity.
Qed.

Lemma Sidebar_selects_at_most_one_entry_witness :
  "/user-setting/team" = "/user-setting/team".
Proof.
  apply (Sidebar_selects_at_most_one_entry (fun s => s)
           "/user-setting/team/members").
  - cbn. tauto.
  - cbn. tauto.
  - cbn. tauto.
  - cbn. tauto.
Defined.

(** The home marker [/] is selected exactly on the paths [/] and
    [/home]; it is then the only selected key, and it is the key of no
    node of the tree. *)
Theorem Sidebar_home_marker (t : string -> string) (pathname : string) :
  (In "/" (Sidebar.getSelectedKeys t pathname) <->
   pathname = "/" \/ pathname = "/home") /\
  (pathname = "/" \/ pathname = "/home" ->
   Sidebar.getSelectedKeys t pathname = ["/"]) /\
  ~ In "/" (tree_keys (Sidebar.items t)).
Proof.
  assert (Home : pathname = "/" \/ pathname = "/home" ->
                 Sidebar.getSelectedKeys t pathname = ["/"]).
  { intros [->| ->]; reflexivity. }
  split; [split|split].
  - intros H.
    destruct (Sidebar_getSelectedKeys_in t pathname "/" H)
      as [[_ P]|[A|[A|[A _]]]]; try discriminate A; [exact P|].
    exfalso. cbn in A.
    repeat (destruct A as [A|A]; [discriminate A|]). exact A.
  - intros P. rewrite (Home P). now left.
  - exact Home.
  - cbn. intros H.
    repeat (destruct H as [H|H]; [discriminate H|]). exact H.
Qed.

Lemma Sidebar_home_marker_witness :
  Sidebar.getSelectedKeys (fun s => s) "/home" = ["/"].
Proof.
  apply (proj1 (proj2 (Sidebar_home_marker (fun s => s) "/home"))).
  right. reflexivity.
Defined.

(** Clicking an entry of the [Sidebar] navigates to its key, and on the
    new path the selection is that key alone for a main entry, and that
    key after [system] or [user] for an entry of a group. *)
Theorem Sidebar_click_then_select (t : string -> string) (w : World)
    (n : MenuItem) :
  (In n (Sidebar.mainMenuItems t) ->
   Sidebar.getSelectedKeys t
     (pathname (exec (Sidebar.handleMenuClick (key n)) w)) = [key n]) /\
  (In n (Sidebar.systemManagementItems t) ->
   Sidebar.getSelectedKeys t
     (pathname (exec (Sidebar.handleMenuClick (key n)) w)) =
     ["system"; key n]) /\
  (In n (Sidebar.userManagementItems t) ->
   Sidebar.getSelectedKeys t
     (pathname (exec (Sidebar.handleMenuClick (key n)) w)) =
     ["user"; key n]).
Proof.
  repeat split; intros Hn; cbn in Hn;
    repeat (destruct Hn as [<-|Hn]; [reflexivity|]); destruct Hn.
Qed.

Lemma Sidebar_click_then_select_witness :
  Sidebar.getSelectedKeys (fun s => s)
    (pathname (exec (Sidebar.handleMenuClick "/user-setting/mcp")
                 (initial "/"))) = ["system"; "/user-setting/mcp"].
Proof.
  apply (proj1 (proj2 (Sidebar_click_then_select (fun s => s) (initial "/")
                         (Item "/user-setting/mcp" "sidebar.mcp" None None None)))).
  cbn. tauto.
Defined.

(** Off the home page, a path that no entry key is a prefix of selects
    nothing. *)
Theorem Sidebar_no_match_selects_nothing (t : string -> string)
    (pathname : string)
    (Hhome : pathname <> "/" /\ pathname <> "/home")
    (Hnone : forall k,
       In k (map key (Sidebar.mainMenuItems t ++
                      Sidebar.systemManagementItems t ++
                      Sidebar.userManagementItems t)) ->
       startsWith pathname k = false) :
  Sidebar.getSelectedKeys t pathname = [].
Proof.
  destruct (Sidebar.getSelectedKeys t pathname) as [|k l] eqn:E; [reflexivity|].
  exfalso.
  assert (Hk : In k (Sidebar.getSelectedKeys t pathname))
    by (rewrite E; now left).
  destruct Hhome as [N1 N2].
  destruct (Sidebar_getSelectedKeys_in t pathname k Hk)
    as [[_ [P|P]]|[A|[A|[A B]]]]; try contradiction.
  - subst k. clear -Hk Hnone.
    unfold Sidebar.getSelectedKeys in Hk.
    rewrite !in_app_iff in Hk. rewrite !in_flat_map in Hk.
    destruct Hk as [(n & Hn & Hk)|[Hk|[(n & Hn & Hk)|(n & Hn & Hk)]]].
    + cbn in Hn. repeat (destruct Hn as [<-|Hn];
        [cbn in Hk; destruct (startsWith pathname _); cbn in Hk;
         repeat (destruct Hk as [Hk|Hk]; [discriminate Hk|]); exact Hk|]).
      destruct Hn.
    + destruct (String.eqb pathname "/" || String.eqb pathname "/home");
        cbn in Hk; repeat (destruct Hk as [Hk|Hk]; [discriminate Hk|]); exact Hk.
    + rewrite (Hnone (key n)) in Hk; [destruct Hk|].
      apply in_map. apply in_or_app. right. apply in_or_app. now left.
    + rewrite (Hnone (key n)) in Hk; [destruct Hk|].
      apply in_map. apply in_or_app. right. apply in_or_app. now right.
  - subst k. clear -Hk Hnone.
    unfold Sidebar.getSelectedKeys in Hk.
    rewrite !in_app_iff in Hk. rewrite !in_flat_map in Hk.
    destruct Hk as [(n & Hn & Hk)|[Hk|[(n & Hn & Hk)|(n & Hn & Hk)]]].
    + cbn in Hn. repeat (destruct Hn as [<-|Hn];
        [cbn in Hk; destruct (startsWith pathname _); cbn in Hk;
         repeat (destruct Hk as [Hk|Hk]; [discriminate Hk|]); exact Hk|]).
      destruct Hn.
    + destruct (String.eqb pathname "/" || String.eqb pathname "/home");
        cbn in Hk; repeat (destruct Hk as [Hk|Hk]; [discriminate Hk|]); exact Hk.
    + rewrite (Hnone (key n)) in Hk; [destruct Hk|].
      apply in_map. apply in_or_app. right. apply in_or_app. now left.
    + rewrite (Hnone (key n)) in Hk; [destruct Hk|].
      apply in_map. apply in_or_app. right. apply in_or_app. now right.
  - rewrite (Hnone k A) in B. discriminate B.
Qed.

Lemma Sidebar_no_match_selects_nothing_witness :
  Sidebar.getSelectedKeys (fun s => s) "/unknown" = [].
Proof.
  apply Sidebar_no_match_selects_nothing.
  - split; discriminate.
  - cbn. intros k H.
    repeat (destruct H as [<-|H]; [reflexivity|]). destruct H.
Defined.

(** ** Collapsing the [Sidebar] *)

Lemma Collapse_run_app (events1 events2 : list bool) (s : Collapse.State) :
  Collapse.run (events1 ++ events2) s =
  Collapse.run events2 (Collapse.run events1 s).
Proof. unfold Collapse.run. apply fold_left_app. Qed.

(** After every collapse event the flag of the layout equals the flag of
    the [Sidebar], which is the value of the latest event; so the margin
    of the content is 80 when the [Sidebar] is collapsed and 240 when it
    is not.  Before the first event both flags are [false]. *)
Theorem Collapse_layout_follows_sidebar (events : list bool) :
  Collapse.sidebarCollapsed (Collapse.run events Collapse.initial) =
    Collapse.collapsed (Collapse.run events Collapse.initial) /\
  Collapse.collapsed (Collapse.run events Collapse.initial) =
    last events false /\
  Collapse.contentMarginLeft (Collapse.run events Collapse.initial) =
    (if last events false then 80%Z else 240%Z).
Proof.
  assert (H : Collapse.run events Collapse.initial =
              Collapse.mkState (last events false) (last events false)).
  { induction events as [|v events IH] using rev_ind; [reflexivity|].
    rewrite Collapse_run_app, IH, last_last. reflexivity. }
  rewrite H. repeat split.
Qed.

(** Mounted without [onCollapseChange], the [Sidebar] collapses on its
    own and the layout never learns of it. *)
Lemma Collapse_without_callback (events : list bool) (s : Collapse.State) :
  Collapse.sidebarCollapsed
    (fold_left (fun s v => Collapse.handleCollapse None v s) events s) =
  Collapse.sidebarCollapsed s.
Proof.
  revert s. induction events as [|v events IH]; intros s; [reflexivity|].
  simpl. rewrite IH. reflexivity.
Qed.

(** ** The theme button *)

(** [onThemeClick] always yields the dark or the light theme.  On these
    two it is an involution; from any other theme it goes to the dark one
    and never comes back. *)
Theorem onThemeClick_toggles (Dark Light : string) (Hdistinct : Dark <> Light)
    (theme : string) :
  (NextHeader.onThemeClick Dark Light theme = Dark \/
   NextHeader.onThemeClick Dark Light theme = Light) /\
  (theme = Dark \/ theme = Light ->
   NextHeader.onThemeClick Dark Light
     (NextHeader.onThemeClick Dark Light theme) = theme) /\
  (theme <> Dark -> theme <> Light ->
   NextHeader.onThemeClick Dark Light theme = Dark /\
   forall n,
     Nat.iter (S n) (NextHeader.onThemeClick Dark Light) theme <> theme).
Proof.
  unfold NextHeader.onThemeClick.
  assert (DL : String.eqb Light Dark = false)
    by (apply String.eqb_neq; congruence).
  split; [|split].
  - destruct (String.eqb theme Dark); [now right|now left].
  - intros [->| ->].
    + rewrite String.eqb_refl, DL. reflexivity.
    + rewrite DL, String.eqb_refl. reflexivity.
  - intros ND NL.
    assert (TD : String.eqb theme Dark = false) by now apply String.eqb_neq.
    rewrite TD. split; [reflexivity|].
    intros n.
    assert (I : Nat.iter (S n)
                  (fun th => if String.eqb th Dark then Light else Dark) theme = Dark
                \/ Nat.iter (S n)
                  (fun th => if String.eqb th Dark then Light else Dark) theme = Light).
    { induction n as [|n IH].
      - simpl. rewrite TD. now left.
      - change (Nat.iter (S (S n)) ?f ?x) with (f (Nat.iter (S n) f x)).
        destruct IH as [->| ->].
        + rewrite String.eqb_refl. now right.
        + rewrite DL. now left. }
    destruct I as [->| ->]; congruence.
Qed.

Lemma onThemeClick_toggles_witness :
  NextHeader.onThemeClick "dark" "light"
    (NextHeader.onThemeClick "dark" "light" "light") = "light".
Proof.
  apply (proj1 (proj2 (onThemeClick_toggles "dark" "light"
                         ltac:(discriminate) "light"))).
  right. reflexivity.
Defined.

(** ** The form of [EditUserModal] *)

Lemma formSchema_empty (t : string -> string) (values : FormData) :
  form_nickname values = "" ->
  UserSetting.formSchema t values = [("nickname", t "common.required")].
Proof.
  unfold UserSetting.formSchema. intros ->. reflexivity.
Qed.

Lemma formSchema_nonempty (t : string -> string) (values : FormData) :
  form_nickname values <> "" -> UserSetting.formSchema t values = [].
Proof.
  unfold UserSetting.formSchema. intros H.
  destruct (form_nickname values) as [|c s]; [now elim H|reflexivity].
Qed.

(** Whatever [onOk] is, values with an empty name never reach it: the
    world only gains the message under the name field.  Values with a
    name are handed to [onOk] as they are, once the messages are
    cleared. *)
Theorem EditUserModal_empty_name_never_reaches_onOk (t : string -> string)
    (onOk : FormData -> M unit) (values : FormData) (w : World) :
  (form_nickname values = "" ->
   UserSetting.handleSubmit t (Some onOk) values w =
     set_formErrors [("nickname", t "common.required")] w) /\
  (form_nickname values <> "" ->
   UserSetting.handleSubmit t (Some onOk) values w =
     onOk values (exec (set_formErrors []) w)).
Proof.
  unfold UserSetting.handleSubmit. split; intros H.
  - rewrite (formSchema_empty t values H). reflexivity.
  - rewrite (formSchema_nonempty t values H). reflexivity.
Qed.

Lemma EditUserModal_empty_name_never_reaches_onOk_witness :
  UserSetting.handleSubmit (fun s => s) (Some UserSetting.handleEditUserOk)
    (mkFormData "" Owner) (initial "/user-setting/team") =
  set_formErrors [("nickname", "common.required")] (initial "/user-setting/team").
Proof.
  apply (proj1 (EditUserModal_empty_name_never_reaches_onOk (fun s => s)
                  UserSetting.handleEditUserOk (mkFormData "" Owner)
                  (initial "/user-setting/team"))).
  reflexivity.
Defined.

(** Editing a user and saving the form as it opens: a user without a
    name keeps the dialog open with the edit buffer intact and the
    message under the name field; a user with a name closes the dialog,
    clears the buffer and leaves one console line naming that user.  In
    neither case is a remote call issued. *)
Theorem EditUser_save_unchanged (t : string -> string) (u : EditingUser)
    (w : World) :
  calls (exec (UserSetting.handleSubmit t (Some UserSetting.handleEditUserOk)
                 (EditUserModal.defaultValues (Some u)))
           (exec (UserSetting.handleEditUser u) w)) = calls w /\
  (nickname u = "" ->
   exec (UserSetting.handleSubmit t (Some UserSetting.handleEditUserOk)
           (EditUserModal.defaultValues (Some u)))
     (exec (UserSetting.handleEditUser u) w) =
   exec (set_formErrors [("nickname", t "common.required")])
     (exec (UserSetting.handleEditUser u) w)) /\
  (nickname u <> "" ->
   exec (UserSetting.handleSubmit t (Some UserSetting.handleEditUserOk)
           (EditUserModal.defaultValues (Some u)))
     (exec (UserSetting.handleEditUser u) w) =
   mkWorld (calls w) (addingTenantModalVisible w) false None (confirm w) []
     (invalidated w)
     (console w ++
      [ConsoleLog "Would update user:" (Some (user_id u))
         (mkFormData (nickname u) (role u))])
     (pathname w) (navigations w)).
Proof.
  unfold EditUserModal.defaultValues, UserSetting.handleSubmit,
    UserSetting.formSchema. simpl.
  destruct (nickname u) as [|c s] eqn:N; simpl.
  - split; [reflexivity|]. split; [reflexivity|]. intros H. now elim H.
  - split; [reflexivity|]. split; [discriminate|]. intros _. reflexivity.
Qed.

Lemma EditUser_save_unchanged_witness :
  editingUserModalVisible
    (exec (UserSetting.handleSubmit (fun s => s)
             (Some UserSetting.handleEditUserOk)
             (EditUserModal.defaultValues
                (Some (mkEditingUser "u1" "ann" "a@b.com" Normal))))
       (exec (UserSetting.handleEditUser
                (mkEditingUser "u1" "ann" "a@b.com" Normal))
          (initial "/user-setting/team"))) = false.
Proof.
  rewrite (proj2 (proj2 (EditUser_save_unchanged (fun s => s)
                           (mkEditingUser "u1" "ann" "a@b.com" Normal)
                           (initial "/user-setting/team")))).
  - reflexivity.
  - discriminate.
Defined.

(** Dismissing the edit dialog closes it and keeps the edit buffer: the
    user last edited stays in [editingUser] until the next edit replaces
    it or a save clears it.  An [onOpenChange(true)] does nothing. *)
Theorem EditUser_dismiss_keeps_buffer (u : EditingUser) (w : World) :
  editingUserModalVisible
    (exec (EditUserModal.onOpenChange (Some UserSetting.hideEditingUserModal) false)
       (exec (UserSetting.handleEditUser u) w)) = false /\
  editingUser
    (exec (EditUserModal.onOpenChange (Some UserSetting.hideEditingUserModal) false)
       (exec (UserSetting.handleEditUser u) w)) = Some u /\
  (forall u',
     editingUser
       (exec (UserSetting.handleEditUser u')
          (exec (EditUserModal.onOpenChange
                   (Some UserSetting.hideEditingUserModal) false)
             (exec (UserSetting.handleEditUser u) w))) = Some u') /\
  (forall hideModal,
     exec (EditUserModal.onOpenChange hideModal true) w = w) /\
  exec (EditUserModal.onOpenChange None false) w = w.
Proof. repeat split. Qed.

(** ** Runs of the team-page handlers *)

(** However often the invite form is submitted, every submission issues
    its own [addTenantUser] call, in order; a dialog that is closed is
    never opened by a submission; and as long as no call is answered
    with the code [0] the dialog stays as it was. *)
Theorem submit_invites_calls_and_dialog
    (result_code : RemoteCall -> list RemoteCall -> Z)
    (emails : list string) (w : World) :
  calls (submit_invites result_code emails w) =
    calls w ++ map AddTenantUser emails /\
  (addingTenantModalVisible w = false ->
   addingTenantModalVisible (submit_invites result_code emails w) = false) /\
  ((forall c history, result_code c history <> 0%Z) ->
   addingTenantModalVisible (submit_invites result_code emails w) =
     addingTenantModalVisible w).
Proof.
  revert w. induction emails as [|e emails IH]; intros w.
  - simpl. rewrite app_nil_r. repeat split; auto.
  - unfold submit_invites in *. simpl.
    destruct (IH (exec (UserSetting.handleAddUserOk result_code e) w))
      as (C & V & K).
    destruct (handleAddUserOk_calls result_code e w) as [Ce _].
    pose proof (handleAddUserOk_visible result_code e w) as Ve.
    split; [|split].
    + rewrite C, Ce, <- app_assoc. reflexivity.
    + intros Hw. apply V. rewrite Ve, Hw.
      destruct (Z.eqb _ 0); reflexivity.
    + intros Hnz. rewrite (K Hnz), Ve.
      specialize (Hnz (AddTenantUser e) (calls w)).
      apply Z.eqb_neq in Hnz. rewrite Hnz. reflexivity.
Qed.

Lemma submit_invites_calls_and_dialog_witness :
  addingTenantModalVisible
    (submit_invites (fun _ _ => 102%Z) ["a@b.com"; "a@b.com"]
       (exec UserSetting.showAddingTenantModal (initial "/user-setting/team"))) =
  addingTenantModalVisible
    (exec UserSetting.showAddingTenantModal (initial "/user-setting/team")).
Proof.
  apply (proj2 (proj2 (submit_invites_calls_and_dialog (fun _ _ => 102%Z)
                         ["a@b.com"; "a@b.com"]
                         (exec UserSetting.showAddingTenantModal
                            (initial "/user-setting/team"))))).
  intros c history. discriminate.
Defined.

(** None of the handlers of the team page navigates or opens the invite
    dialog: the router is left alone by every one of them, and so is a
    closed invite dialog. *)
Theorem team_handlers_leave_router_alone (t : string -> string)
    (result_code : RemoteCall -> list RemoteCall -> Z)
    (status_outcome : string -> ActivateStatus -> list RemoteCall -> Settled Z)
    (user_id_of_session : string) (w : World) (h : M unit) :
  (exists email, h = UserSetting.handleAddUserOk result_code email) \/
  (exists userId, h = UserSetting.handleDeleteTenantUser t userId) \/
  (exists userId tenantId,
     h = UserSetting.handleQuitTenantUser t userId tenantId) \/
  h = UserSetting.confirmOk result_code \/
  h = UserSetting.confirmCancel \/
  (exists tenantId isAgree,
     h = UserSetting.handleAgree result_code user_id_of_session tenantId isAgree) \/
  (exists variables,
     h = UserSetting.useUpdateUserStatus status_outcome variables) \/
  (exists userData, h = UserSetting.handleEditUser userData) \/
  (exists data, h = UserSetting.handleEditUserOk data) ->
  pathname (exec h w) = pathname w /\
  navigations (exec h w) = navigations w /\
  (addingTenantModalVisible w = false ->
   addingTenantModalVisible (exec h w) = false).
Proof.
  intros [[email ->]|[[userId ->]|[(userId & tenantId & ->)|[->|[->|
          [(tenantId & isAgree & ->)|[([email isActive] & ->)|
          [[userData ->]|[data ->]]]]]]]]].
  - unfold UserSetting.handleAddUserOk, UserSetting.addTenantUser, exec, bind.
    rewrite remote_issues_one_call.
    destruct (Z.eqb _ 0); repeat split; auto.
  - repeat split; auto.
  - repeat split; auto.
  - unfold UserSetting.confirmOk, exec.
    destruct (confirm w) as [[title [userId|userId tenantId]]|];
      cbn; try destruct (Z.eqb _ 0); repeat split; auto.
  - repeat split; auto.
  - destruct isAgree; repeat split; auto.
  - unfold UserSetting.useUpdateUserStatus, UserSetting.useMutation,
      UserSetting.updateUserStatus, exec, bind.
    destruct (status_outcome _ _ _); repeat split; auto.
  - repeat split; auto.
  - repeat split; auto.
Qed.

Lemma team_handlers_leave_router_alone_witness :
  pathname
    (exec (UserSetting.handleAgree (fun _ _ => 0%Z) "me" "t1" false)
       (initial "/user-setting/team")) =
    pathname (initial "/user-setting/team").
Proof.
  apply (team_handlers_leave_router_alone (fun s => s) (fun _ _ => 0%Z)
           (fun _ _ _ => Fulfilled 0%Z) "me" (initial "/user-setting/team")
           (UserSetting.handleAgree (fun _ _ => 0%Z) "me" "t1" false)).
  do 5 right. left. exists "t1", false. reflexivity.
Defined.
